(** * ptp_example: reading a dynamic POSIX clock through /dev/ptp0

    Shallow embedding of [src/main.cpp]: the [FD_TO_CLOCKID] macro, the
    function [GetPtpTime] with its function-local [static clockid_t clkid],
    [PrintTime] and [main].

    Integers of the C program are values of [Z]; the places where the
    program narrows to 32 bits ([unsigned int], [clockid_t]) carry their
    wrap-around explicitly.  The operating system ([open], [clock_gettime],
    [std::chrono::system_clock::now]) is an environment record whose answers
    may change from one call to the next; everything the program does to the
    outside world is appended to a trace. *)

From Stdlib Require Import ZArith List Lia String Bool.
Import ListNotations.
Local Open Scope Z_scope.

(* ================================================================= *)
(** ** C integers *)

Module CInt.

(** Conversion to [unsigned int] (32 bits). *)
Definition to_unsigned (z : Z) : Z := z mod 2 ^ 32.

(** Conversion to [int] / [clockid_t] (32 bits, two's complement). *)
Definition to_signed (z : Z) : Z :=
  let u := z mod 2 ^ 32 in
  if u <? 2 ^ 31 then u else u - 2 ^ 32.

(** The values an [int] can hold. *)
Definition in_int (z : Z) : Prop := - 2 ^ 31 <= z < 2 ^ 31.

End CInt.

(* ================================================================= *)
(** ** Macros (main.cpp:37-42) *)

(** [#define FD_TO_CLOCKID(fd) ((clockid_t)((((unsigned int)~fd) << 3) | 3))]

    [~fd] is taken on the [int], converted to [unsigned int], shifted in
    [unsigned int] arithmetic (bits shifted past position 31 are lost),
    or-ed with 3 and converted to [clockid_t]. *)
Definition FD_TO_CLOCKID (fd : Z) : Z :=
  CInt.to_signed
    (Z.lor (CInt.to_unsigned (Z.shiftl (CInt.to_unsigned (Z.lnot fd)) 3)) 3).

(** [#define CLOCK_INVALID -1] *)
Definition CLOCK_INVALID : Z := -1.

(** [CLOCK_REALTIME] of <time.h>. *)
Definition CLOCK_REALTIME : Z := 0.

(** The derivation as the specification words it: complement, shift left by
    three, or with three, the result read as a 32-bit signed integer. *)
Definition derive_identifier_spec (handle : Z) : Z :=
  CInt.to_signed (Z.lor (Z.shiftl (Z.lnot handle) 3) 3).

(** Recovering a descriptor from an identifier: undo the tag and the
    complement with an arithmetic shift.  The program never computes this;
    it is the candidate inverse the round-trip property is stated with. *)
Definition clockid_to_fd (clk : Z) : Z := Z.lnot (Z.shiftr clk 3).

(* ================================================================= *)
(** ** Data *)

(** [struct timespec]. *)
Record timespec : Type := mkTimespec { tv_sec : Z; tv_nsec : Z }.

(** What [memset(ts, 0, sizeof(struct timespec))] leaves in the buffer. *)
Definition zero_timespec : timespec := mkTimespec 0 0.

(** Lines written to standard output. *)
Inductive out_line : Type :=
| OpenLine (fd : Z)                          (* "open /dev/ptp0, fd = <fd>" *)
| TimeLine (label : string) (ts : timespec)  (* "<label>: <sec>s <nsec>ns" *)
| DateLine (seconds : Z).                    (* the calendar line of PrintTime *)

(** Lines written to standard error. *)
Inductive err_line : Type :=
| OpenFailed       (* "Failed to open /dev/ptp0: ..." *)
| GettimeFailed    (* "clock_gettime failed: ..." *)
| NoClockId.       (* "Failed to get clock ID" *)

(** Everything the process does to the outside world, in program order. *)
Inductive event : Type :=
| SysOpen (fd : Z)                    (* open(DEV_PATH, O_RDWR) returned fd *)
| SysClockGettime (clk : Z) (rc : Z)  (* clock_gettime(clk, _) returned rc *)
| SysNow (count : Z)                  (* system_clock::now(), in nanoseconds *)
| Stdout (l : out_line)
| Stderr (l : err_line).

(** The environment of one process run.  The answer of a system call may
    depend on how many calls of that kind came before it, so a device can
    appear, disappear or start failing between calls.  [clock_gettime]
    receives the buffer as it is before the call and yields the return code
    and the buffer as it is after the call.  The two [stack_*] fields are the
    indeterminate initial contents of the automatic variables [ts] and [ts2]
    of [main]. *)
Record Env : Type := mkEnv {
  env_open : nat -> Z;
  env_clock_gettime : nat -> Z -> timespec -> Z * timespec;
  env_now : Z;
  stack_ts : timespec;
  stack_ts2 : timespec
}.

(** The state of the process: the function-local [static clockid_t clkid] of
    [GetPtpTime] and the trace so far. *)
Record World : Type := mkWorld { clkid : Z; trace : list event }.

(** Process start: [static clockid_t clkid = CLOCK_INVALID]. *)
Definition init_world : World := mkWorld CLOCK_INVALID [].

Definition is_open (e : event) : bool :=
  match e with SysOpen _ => true | _ => false end.

Definition is_clock_gettime (e : event) : bool :=
  match e with SysClockGettime _ _ => true | _ => false end.

(** Number of [open] calls and of [clock_gettime] calls made so far. *)
Definition opens (w : World) : nat := List.length (filter is_open (trace w)).
Definition gettimes (w : World) : nat :=
  List.length (filter is_clock_gettime (trace w)).

(* ================================================================= *)
(** ** The program monad: state passing over [World] *)

Definition Prog (A : Type) : Type := World -> A * World.

Definition ret {A : Type} (a : A) : Prog A := fun w => (a, w).

Definition bind {A B : Type} (m : Prog A) (k : A -> Prog B) : Prog B :=
  fun w => k (fst (m w)) (snd (m w)).

Declare Scope prog_scope.
Delimit Scope prog_scope with prog.
Notation "x <- m ;; k" := (bind m (fun x => k))
  (at level 61, m at next level, right associativity) : prog_scope.
Notation "m ;; k" := (bind m (fun _ => k))
  (at level 61, right associativity) : prog_scope.
Local Open Scope prog_scope.

Definition emit (e : event) : Prog unit :=
  fun w => (tt, mkWorld (clkid w) (trace w ++ [e])).

Definition load_clkid : Prog Z := fun w => (clkid w, w).

Definition store_clkid (c : Z) : Prog unit :=
  fun w => (tt, mkWorld c (trace w)).

(** [open(DEV_PATH, O_RDWR)] *)
Definition sys_open (env : Env) : Prog Z :=
  fun w =>
    let fd := env_open env (opens w) in
    (fd, snd (emit (SysOpen fd) w)).

(** [clock_gettime(clk, &buf)]: the return code and the buffer afterwards. *)
Definition sys_clock_gettime (env : Env) (clk : Z) (buf : timespec)
  : Prog (Z * timespec) :=
  fun w =>
    let r := env_clock_gettime env (gettimes w) clk buf in
    (r, snd (emit (SysClockGettime clk (fst r)) w)).

(** [std::chrono::system_clock::now().time_since_epoch()], a signed count of
    nanoseconds. *)
Definition sys_now (env : Env) : Prog Z :=
  fun w => (env_now env, snd (emit (SysNow (env_now env)) w)).

(* ================================================================= *)
(** ** GetPtpTime (main.cpp:44-66) *)

(** Lines 46-55: the lazy initialisation of the static [clkid].  The result
    is [false] when the function leaves through [return CLOCK_INVALID] of
    line 52 and [true] when control reaches line 57. *)
Definition GetPtpTime_acquire (env : Env) : Prog bool :=
  c <- load_clkid ;;
  if c =? CLOCK_INVALID then
    fd <- sys_open env ;;
    emit (Stdout (OpenLine fd)) ;;
    if fd <? 0 then
      emit (Stderr OpenFailed) ;;
      ret false
    else
      store_clkid (FD_TO_CLOCKID fd) ;;
      ret true
  else ret true.

(** Lines 57-65: the optional time read.  [ts] is [None] for a null pointer
    and [Some buf] for a pointer to a buffer holding [buf].  The result is
    the returned [clockid_t] and the buffer as the caller finds it. *)
Definition GetPtpTime_read (env : Env) (ts : option timespec)
  : Prog (Z * option timespec) :=
  c <- load_clkid ;;
  match ts with
  | Some _ =>
      r <- sys_clock_gettime env c zero_timespec ;;
      if fst r <? 0 then
        emit (Stderr GettimeFailed) ;;
        ret (CLOCK_INVALID, Some (snd r))
      else ret (c, Some (snd r))
  | None => ret (c, None)
  end.

Definition GetPtpTime (env : Env) (ts : option timespec)
  : Prog (Z * option timespec) :=
  ok <- GetPtpTime_acquire env ;;
  if ok then GetPtpTime_read env ts else ret (CLOCK_INVALID, ts).

(** A sequence of calls of [GetPtpTime] within one process, each with its own
    argument; the results are returned in call order. *)
Fixpoint run_calls (env : Env) (args : list (option timespec))
  : Prog (list (Z * option timespec)) :=
  match args with
  | [] => ret []
  | ts :: rest =>
      r <- GetPtpTime env ts ;;
      rs <- run_calls env rest ;;
      ret (r :: rs)
  end.

(* ================================================================= *)
(** ** PrintTime and main (main.cpp:68-105) *)

(** [PrintTime] formats [localtime(&ts.tv_sec)]; only the seconds are used. *)
Definition PrintTime (ts : timespec) : Prog unit :=
  emit (Stdout (DateLine (tv_sec ts))).

(** The buffer a non-null [ts] argument points to after the call. *)
Definition buffer_of (r : Z * option timespec) (dflt : timespec) : timespec :=
  match snd r with Some b => b | None => dflt end.

(** [main]; the result is the exit code.  [duration_cast<seconds>] and [%]
    both truncate towards zero ([Z.quot] and [Z.rem]). *)
Definition main (env : Env) : Prog Z :=
  r <- GetPtpTime env (Some (stack_ts env)) ;;
  if fst r =? CLOCK_INVALID then
    emit (Stderr NoClockId) ;;
    ret 1
  else
    let ts := buffer_of r (stack_ts env) in
    emit (Stdout (TimeLine "ptp time" ts)) ;;
    PrintTime ts ;;
    r2 <- sys_clock_gettime env CLOCK_REALTIME (stack_ts2 env) ;;
    let ts2 := snd r2 in
    emit (Stdout (TimeLine "real time" ts2)) ;;
    PrintTime ts2 ;;
    duration_ns <- sys_now env ;;
    let ts3 := mkTimespec (Z.quot duration_ns 1000000000)
                          (Z.rem duration_ns 1000000000) in
    emit (Stdout (TimeLine "system clock time" ts3)) ;;
    PrintTime ts3 ;;
    ret 0.

(** Exit code and trace of a whole process run. *)
Definition exit_code (env : Env) : Z := fst (main env init_world).
Definition run_trace (env : Env) : list event :=
  trace (snd (main env init_world)).

(* ================================================================= *)
(** ** Observations on traces *)

(** The timestamps the process printed, in order. *)
Fixpoint printed_timestamps (tr : list event) : list (string * timespec) :=
  match tr with
  | [] => []
  | Stdout (TimeLine l ts) :: tr' => (l, ts) :: printed_timestamps tr'
  | _ :: tr' => printed_timestamps tr'
  end.






(** An [open] that returned a descriptor. *)
Definition is_successful_open (e : event) : bool :=
  match e with SysOpen fd => 0 <=? fd | _ => false end.

(** Some [open] of the process has succeeded. *)
Definition open_succeeded (w : World) : bool :=
  existsb is_successful_open (trace w).

(** The events a step appended: the trace of [w'] past the trace of [w]. *)
Definition events_since (w w' : World) : list event :=
  skipn (List.length (trace w)) (trace w').




(* ================================================================= *)
(** ** Sample environments *)

(** A clock whose every read returns -1 and leaves the buffer alone. *)
Definition gettime_fails : nat -> Z -> timespec -> Z * timespec :=
  fun _ _ buf => (-1, buf).

(** A clock whose every read succeeds with the same normalised time. *)
Definition gettime_ok : nat -> Z -> timespec -> Z * timespec :=
  fun _ _ _ => (0, mkTimespec 1700000000 123456789).

Definition junk : timespec := mkTimespec 42 4242.


(** The device opens as descriptor 3 and every clock read succeeds. *)
Definition env_healthy : Env :=
  mkEnv (fun _ => 3) gettime_ok 1700000000123456789 junk junk.

(** The device opens as descriptor 3 but every clock read fails. *)
Definition env_read_fails : Env :=
  mkEnv (fun _ => 3) gettime_fails 1700000000123456789 junk junk.

(** The device is absent at the first [open] and present from the second. *)
Definition env_late_device : Env :=
  mkEnv (fun k => match k with O => -1 | S _ => 3 end)
        gettime_ok 1700000000123456789 junk junk.

(** A healthy device on a machine whose clock is set one nanosecond before
    the epoch. *)
Definition env_before_epoch : Env :=
  mkEnv (fun _ => 3) gettime_ok (-1) junk junk.

(* ================================================================= *)
(** ** Further observations and environments *)




(** The opens of the process that returned a descriptor. *)
Definition successful_opens (w : World) : list event :=
  filter is_successful_open (trace w).

(** The cache agrees with the opens so far: empty while none has succeeded,
    and derived from the one descriptor once one has; a second successful
    open is excluded. *)
Definition holds_one_descriptor (w : World) : Prop :=
  match successful_opens w with
  | [] => clkid w = CLOCK_INVALID
  | [SysOpen fd] => clkid w = FD_TO_CLOCKID fd
  | _ => False
  end.

(** A [clock_gettime] event names the clock [id]; other events pass. *)
Definition reads_clock (id : Z) (e : event) : Prop :=
  match e with
  | SysClockGettime clk _ => clk = id /\ clk <> CLOCK_INVALID
  | _ => True
  end.

(** The same environment with other initial contents of [ts] of [main]. *)
Definition with_stack_ts (env : Env) (ts : timespec) : Env :=
  mkEnv (env_open env) (env_clock_gettime env) (env_now env)
        ts (stack_ts2 env).


(** The device is absent at the first two opens and present afterwards. *)
Definition env_third_try : Env :=
  mkEnv (fun k => match k with O | S O => -1 | _ => 5 end)
        gettime_ok 1700000000123456789 junk junk.

(* ================================================================= *)
(** ** Arithmetic of the derivation *)

Lemma lor_tag (x : Z) : Z.lor (8 * x) 3 = 8 * x + 3.
Proof.
  assert (Hland : Z.land (8 * x) 3 = 0).
  { apply Z.bits_inj'; intros n Hn. rewrite Z.land_spec, Z.bits_0.
    destruct (Z.ltb_spec n 2) as [Hlt | Hge].
    - replace (8 * x) with (x * 2 ^ 3) by lia.
      rewrite Z.mul_pow2_bits_low by lia. reflexivity.
    - change 3 with (Z.ones 2).
      rewrite Z.ones_spec_high by lia. apply andb_false_r. }
  rewrite <- (Z.lxor_lor _ _ Hland). symmetry.
  apply Z.add_nocarry_lxor, Hland.
Qed.

Lemma FD_TO_CLOCKID_arith (fd : Z) :
  FD_TO_CLOCKID fd = CInt.to_signed (- (8 * fd) - 5).
Proof.
  unfold FD_TO_CLOCKID, CInt.to_unsigned.
  rewrite Z.shiftl_mul_pow2 by lia.
  set (a := Z.lnot fd mod 2 ^ 32).
  assert (Ha : Z.lnot fd = 2 ^ 32 * (Z.lnot fd / 2 ^ 32) + a)
    by (apply Z.div_mod; lia).
  set (b := (a * 2 ^ 3) mod 2 ^ 32).
  assert (Hb : a * 2 ^ 3 = 2 ^ 32 * (a * 2 ^ 3 / 2 ^ 32) + b)
    by (apply Z.div_mod; lia).
  assert (Hb8 : b = 8 * (a mod 2 ^ 29)).
  { unfold b. change (2 ^ 32) with (2 ^ 29 * 2 ^ 3).
    rewrite Z.mul_mod_distr_r by lia. lia. }
  rewrite Hb8, lor_tag.
  unfold CInt.to_signed.
  replace ((8 * (a mod 2 ^ 29) + 3) mod 2 ^ 32)
    with ((- (8 * fd) - 5) mod 2 ^ 32); [reflexivity|].
  unfold Z.lnot in Ha. rewrite <- Z.sub_1_r in Ha.
  assert (Ha29 : a = 2 ^ 29 * (a / 2 ^ 29) + a mod 2 ^ 29)
    by (apply Z.div_mod; lia).
  replace (- (8 * fd) - 5)
    with (8 * (a mod 2 ^ 29) + 3
          + (8 * (Z.lnot fd / 2 ^ 32) + (a / 2 ^ 29)) * 2 ^ 32).
  - apply Z_mod_plus_full.
  - unfold Z.lnot in *. rewrite <- Z.sub_1_r in *. lia.
Qed.

Lemma to_signed_wrap (z : Z) :
  exists k, CInt.to_signed z = z + k * 2 ^ 32 /\ CInt.in_int (CInt.to_signed z).
Proof.
  unfold CInt.to_signed, CInt.in_int.
  pose proof (Z.div_mod z (2 ^ 32) ltac:(lia)) as Hdm.
  pose proof (Z.mod_pos_bound z (2 ^ 32) ltac:(lia)) as Hb.
  cbv zeta. destruct (Z.ltb_spec (z mod 2 ^ 32) (2 ^ 31)).
  - exists (- (z / 2 ^ 32)). lia.
  - exists (- (z / 2 ^ 32) - 1). lia.
Qed.

Lemma to_signed_in_int (z : Z) : CInt.in_int z -> CInt.to_signed z = z.
Proof.
  intros Hz. destruct (to_signed_wrap z) as (k & Hk & Hr).
  unfold CInt.in_int in *. rewrite Hk in *. nia.
Qed.

Lemma to_signed_eq_iff (a b : Z) :
  CInt.to_signed a = CInt.to_signed b <-> a mod 2 ^ 32 = b mod 2 ^ 32.
Proof.
  unfold CInt.to_signed. cbv zeta.
  pose proof (Z.mod_pos_bound a (2 ^ 32) ltac:(lia)).
  pose proof (Z.mod_pos_bound b (2 ^ 32) ltac:(lia)).
  destruct (Z.ltb_spec (a mod 2 ^ 32) (2 ^ 31)),
           (Z.ltb_spec (b mod 2 ^ 32) (2 ^ 31)); lia.
Qed.

Lemma FD_TO_CLOCKID_mod8 (fd : Z) : FD_TO_CLOCKID fd mod 8 = 3.
Proof.
  rewrite FD_TO_CLOCKID_arith.
  destruct (to_signed_wrap (- (8 * fd) - 5)) as (k & -> & _).
  replace (- (8 * fd) - 5 + k * 2 ^ 32)
    with (3 + (k * 2 ^ 29 - fd - 1) * 8) by lia.
  rewrite Z_mod_plus_full. reflexivity.
Qed.

Lemma FD_TO_CLOCKID_valid (fd : Z) : FD_TO_CLOCKID fd <> CLOCK_INVALID.
Proof.
  intros H. pose proof (FD_TO_CLOCKID_mod8 fd) as Hm.
  rewrite H in Hm. discriminate Hm.
Qed.

Lemma FD_TO_CLOCKID_small (fd : Z) :
  - 2 ^ 28 <= fd < 2 ^ 28 -> FD_TO_CLOCKID fd = - (8 * fd) - 5.
Proof.
  intros Hfd. rewrite FD_TO_CLOCKID_arith.
  apply to_signed_in_int. unfold CInt.in_int. lia.
Qed.

Lemma FD_TO_CLOCKID_collide (a b : Z) :
  FD_TO_CLOCKID a = FD_TO_CLOCKID b <-> a mod 2 ^ 29 = b mod 2 ^ 29.
Proof.
  rewrite !FD_TO_CLOCKID_arith, to_signed_eq_iff.
  pose proof (Z.div_mod a (2 ^ 29) ltac:(lia)) as Ha.
  pose proof (Z.div_mod b (2 ^ 29) ltac:(lia)) as Hb.
  pose proof (Z.mod_pos_bound a (2 ^ 29) ltac:(lia)) as Ba.
  pose proof (Z.mod_pos_bound b (2 ^ 29) ltac:(lia)) as Bb.
  set (ra := a mod 2 ^ 29) in *. set (rb := b mod 2 ^ 29) in *.
  replace (- (8 * a) - 5)
    with ((2 ^ 32 - 8 * ra - 5) + (- (a / 2 ^ 29) - 1) * 2 ^ 32) by lia.
  replace (- (8 * b) - 5)
    with ((2 ^ 32 - 8 * rb - 5) + (- (b / 2 ^ 29) - 1) * 2 ^ 32) by lia.
  rewrite !Z_mod_plus_full, !Z.mod_small by lia. lia.
Qed.

(* ================================================================= *)
(** ** Equations of GetPtpTime *)

#[local] Arguments FD_TO_CLOCKID : simpl never.
#[local] Arguments Z.mul : simpl never.
#[local] Arguments Z.quot : simpl never.
#[local] Arguments Z.rem : simpl never.

Ltac prog_unfold :=
  unfold GetPtpTime, GetPtpTime_acquire, GetPtpTime_read, PrintTime,
    sys_open, sys_clock_gettime, sys_now, emit, load_clkid, store_clkid,
    bind, ret.

Ltac prog_simpl := prog_unfold; cbn [fst snd clkid trace].

Section Calls.

Variable env : Env.

Lemma acquire_cached (w : World) :
  clkid w <> CLOCK_INVALID -> GetPtpTime_acquire env w = (true, w).
Proof.
  intros H. apply Z.eqb_neq in H. prog_simpl. rewrite H. reflexivity.
Qed.

Lemma acquire_open_failed (w : World) :
  clkid w = CLOCK_INVALID ->
  env_open env (opens w) < 0 ->
  let fd := env_open env (opens w) in
  GetPtpTime_acquire env w =
  (false, mkWorld CLOCK_INVALID
            (trace w ++ [SysOpen fd; Stdout (OpenLine fd); Stderr OpenFailed])).
Proof.
  intros H Hfd fd. prog_simpl. rewrite H. cbn [Z.eqb CLOCK_INVALID Pos.eqb].
  apply Z.ltb_lt in Hfd. fold fd in Hfd |- *. rewrite Hfd.
  cbn [fst snd clkid trace]. rewrite H, <- !app_assoc. reflexivity.
Qed.

Lemma acquire_open_ok (w : World) :
  clkid w = CLOCK_INVALID ->
  0 <= env_open env (opens w) ->
  let fd := env_open env (opens w) in
  GetPtpTime_acquire env w =
  (true, mkWorld (FD_TO_CLOCKID fd)
           (trace w ++ [SysOpen fd; Stdout (OpenLine fd)])).
Proof.
  intros H Hfd fd. prog_simpl. rewrite H. cbn [Z.eqb CLOCK_INVALID Pos.eqb].
  apply Z.ltb_ge in Hfd. fold fd in Hfd |- *. rewrite Hfd.
  cbn [fst snd clkid trace]. rewrite <- !app_assoc. reflexivity.
Qed.

Lemma read_null (w : World) :
  GetPtpTime_read env None w = ((clkid w, None), w).
Proof. reflexivity. Qed.

Lemma read_buffer (buf : timespec) (w : World) :
  let r := env_clock_gettime env (gettimes w) (clkid w) zero_timespec in
  GetPtpTime_read env (Some buf) w =
  if fst r <? 0
  then ((CLOCK_INVALID, Some (snd r)),
        mkWorld (clkid w)
          (trace w ++ [SysClockGettime (clkid w) (fst r); Stderr GettimeFailed]))
  else ((clkid w, Some (snd r)),
        mkWorld (clkid w) (trace w ++ [SysClockGettime (clkid w) (fst r)])).
Proof.
  intros r. prog_simpl. fold r.
  destruct (fst r <? 0); cbn [fst snd clkid trace].
  - rewrite <- !app_assoc. reflexivity.
  - reflexivity.
Qed.

Lemma opens_app (c : Z) (tr evs : list event) :
  opens (mkWorld c (tr ++ evs)) =
  (List.length (filter is_open tr) + List.length (filter is_open evs))%nat.
Proof.
  unfold opens. cbn [trace]. rewrite filter_app, length_app. reflexivity.
Qed.

Lemma read_keeps (ts : option timespec) (w : World) :
  clkid (snd (GetPtpTime_read env ts w)) = clkid w /\
  opens (snd (GetPtpTime_read env ts w)) = opens w.
Proof.
  destruct ts as [buf|]; [|split; reflexivity].
  rewrite read_buffer. cbv zeta.
  destruct (fst _ <? 0); cbn [snd clkid]; rewrite opens_app; cbn;
    split; try reflexivity; unfold opens; lia.
Qed.

Lemma read_trace (ts : option timespec) :
  (forall w, exists evs,
      snd (GetPtpTime_read env ts w) = mkWorld (clkid w) (trace w ++ evs) /\
      existsb is_successful_open evs = false) /\
  (forall w, fst (fst (GetPtpTime_read env ts w)) = clkid w \/
             fst (fst (GetPtpTime_read env ts w)) = CLOCK_INVALID).
Proof.
  split; intros w; destruct ts as [buf|].
  - rewrite read_buffer. cbv zeta.
    destruct (fst _ <? 0); eexists; split; reflexivity.
  - exists []. rewrite read_null, app_nil_r. destruct w. split; reflexivity.
  - rewrite read_buffer. cbv zeta. destruct (fst _ <? 0); [right | left];
      reflexivity.
  - left. reflexivity.
Qed.

Lemma GetPtpTime_cached (ts : option timespec) (w : World) :
  clkid w <> CLOCK_INVALID ->
  GetPtpTime env ts w = GetPtpTime_read env ts w.
Proof.
  intros H. unfold GetPtpTime, bind. rewrite (acquire_cached w H).
  reflexivity.
Qed.

Lemma GetPtpTime_open_failed (ts : option timespec) (w : World) :
  clkid w = CLOCK_INVALID ->
  env_open env (opens w) < 0 ->
  let fd := env_open env (opens w) in
  GetPtpTime env ts w =
  ((CLOCK_INVALID, ts),
   mkWorld CLOCK_INVALID
     (trace w ++ [SysOpen fd; Stdout (OpenLine fd); Stderr OpenFailed])).
Proof.
  intros H Hfd fd. unfold GetPtpTime, bind.
  rewrite (acquire_open_failed w H Hfd). reflexivity.
Qed.

Lemma GetPtpTime_open_ok (ts : option timespec) (w : World) :
  clkid w = CLOCK_INVALID ->
  0 <= env_open env (opens w) ->
  let fd := env_open env (opens w) in
  GetPtpTime env ts w =
  GetPtpTime_read env ts
    (mkWorld (FD_TO_CLOCKID fd) (trace w ++ [SysOpen fd; Stdout (OpenLine fd)])).
Proof.
  intros H Hfd fd. unfold GetPtpTime, bind.
  rewrite (acquire_open_ok w H Hfd). reflexivity.
Qed.

Lemma run_calls_cons (ts : option timespec)
      (rest : list (option timespec)) (w : World) :
  snd (run_calls env (ts :: rest) w) =
  snd (run_calls env rest (snd (GetPtpTime env ts w))).
Proof. reflexivity. Qed.

Lemma run_calls_cached (args : list (option timespec)) :
  forall w, clkid w <> CLOCK_INVALID ->
  clkid (snd (run_calls env args w)) = clkid w /\
  opens (snd (run_calls env args w)) = opens w.
Proof.
  induction args as [|ts rest IH]; intros w Hw.
  - split; reflexivity.
  - rewrite run_calls_cons, (GetPtpTime_cached ts w Hw).
    destruct (read_keeps ts w) as [Hc Ho].
    destruct (IH (snd (GetPtpTime_read env ts w))) as [Hc' Ho'].
    + rewrite Hc. exact Hw.
    + split; congruence.
Qed.

Lemma gettimes_app (c : Z) (tr evs : list event) :
  gettimes (mkWorld c (tr ++ evs)) =
  (List.length (filter is_clock_gettime tr)
   + List.length (filter is_clock_gettime evs))%nat.
Proof.
  unfold gettimes. cbn [trace]. rewrite filter_app, length_app. reflexivity.
Qed.

Lemma events_since_app (w : World) (c : Z) (evs : list event) :
  events_since w (mkWorld c (trace w ++ evs)) = evs.
Proof.
  unfold events_since. cbn [trace].
  induction (trace w) as [|e tr IH]; [reflexivity | exact IH].
Qed.

(** The three ways a call with a buffer can go: the open fails (line 52), the
    read fails (line 61), or the call succeeds (line 65).  [pre] is what the
    acquisition step printed: nothing when the identifier was cached. *)
Lemma GetPtpTime_buffer_cases (buf : timespec) (w : World) :
  let fd := env_open env (opens w) in
  (clkid w = CLOCK_INVALID /\ fd < 0 /\
   GetPtpTime env (Some buf) w =
   ((CLOCK_INVALID, Some buf),
    mkWorld CLOCK_INVALID
      (trace w ++ [SysOpen fd; Stdout (OpenLine fd); Stderr OpenFailed])))
  \/
  exists id pre,
    id <> CLOCK_INVALID /\
    ((clkid w = id /\ pre = []) \/
     (clkid w = CLOCK_INVALID /\ 0 <= fd /\ id = FD_TO_CLOCKID fd /\
      pre = [SysOpen fd; Stdout (OpenLine fd)])) /\
    let q := env_clock_gettime env (gettimes w) id zero_timespec in
    (fst q < 0 /\
     GetPtpTime env (Some buf) w =
     ((CLOCK_INVALID, Some (snd q)),
      mkWorld id
        (trace w ++ pre ++ [SysClockGettime id (fst q); Stderr GettimeFailed])))
    \/
    (0 <= fst q /\
     GetPtpTime env (Some buf) w =
     ((id, Some (snd q)),
      mkWorld id (trace w ++ pre ++ [SysClockGettime id (fst q)]))).
Proof.
  intros fd.
  destruct (Z.eq_dec (clkid w) CLOCK_INVALID) as [Hinv | Hc].
  - destruct (Z.lt_ge_cases fd 0) as [Hfd | Hfd].
    + left. repeat split; try assumption.
      apply GetPtpTime_open_failed; assumption.
    + right. exists (FD_TO_CLOCKID fd), [SysOpen fd; Stdout (OpenLine fd)].
      split; [apply FD_TO_CLOCKID_valid|].
      split; [right; repeat split; assumption|].
      rewrite (GetPtpTime_open_ok (Some buf) w Hinv Hfd), read_buffer.
      fold fd. cbn [clkid trace]. rewrite gettimes_app.
      cbn [filter is_clock_gettime List.length]. rewrite Nat.add_0_r.
      fold (gettimes w). cbv zeta.
      destruct (Z.ltb_spec
                  (fst (env_clock_gettime env (gettimes w) (FD_TO_CLOCKID fd)
                          zero_timespec)) 0);
        [left | right]; (split; [assumption|]); rewrite <- app_assoc;
        reflexivity.
  - right. exists (clkid w), []. split; [assumption|].
    split; [left; split; reflexivity|].
    rewrite (GetPtpTime_cached (Some buf) w Hc), read_buffer. cbv zeta.
    destruct (Z.ltb_spec
                (fst (env_clock_gettime env (gettimes w) (clkid w)
                        zero_timespec)) 0);
      [left | right]; (split; [assumption|]); reflexivity.
Qed.

Lemma opens_init : opens init_world = 0%nat.
Proof. reflexivity. Qed.

Lemma GetPtpTime_after_open_ok (ts : option timespec) (w : World) :
  clkid w = CLOCK_INVALID ->
  0 <= env_open env (opens w) ->
  clkid (snd (GetPtpTime env ts w)) = FD_TO_CLOCKID (env_open env (opens w)) /\
  opens (snd (GetPtpTime env ts w)) = S (opens w).
Proof.
  intros Hinv Hfd. rewrite (GetPtpTime_open_ok ts w Hinv Hfd).
  destruct (read_keeps ts
              (mkWorld (FD_TO_CLOCKID (env_open env (opens w)))
                 (trace w ++ [SysOpen (env_open env (opens w));
                              Stdout (OpenLine (env_open env (opens w)))])))
    as [Hc Ho].
  rewrite Hc, Ho, opens_app. cbn. unfold opens. split; [reflexivity | lia].
Qed.

Lemma GetPtpTime_after_open_failed (ts : option timespec)
      (w : World) :
  clkid w = CLOCK_INVALID ->
  env_open env (opens w) < 0 ->
  clkid (snd (GetPtpTime env ts w)) = CLOCK_INVALID /\
  opens (snd (GetPtpTime env ts w)) = S (opens w).
Proof.
  intros Hinv Hfd. rewrite (GetPtpTime_open_failed ts w Hinv Hfd).
  cbn [snd clkid]. rewrite opens_app. cbn. unfold opens.
  split; [reflexivity | lia].
Qed.

End Calls.

(* ================================================================= *)
(** ** The cached identifier *)

(** C3.  In a process whose first call opens the device successfully, after
    that call and any sequence of further calls: the cached identifier is the
    one derived at the first call, the process has made exactly one [open],
    the acquisition step returns at once without touching the world, a call
    with a null pointer returns the cached identifier with no I/O at all, a
    call with a buffer returns it unless the time read fails, and any
    further call still leaves the number of opens at one. *)
Theorem cached_identifier_reused (env : Env) (ts0 : option timespec)
        (later : list (option timespec)) :
  0 <= env_open env 0 ->
  let id := FD_TO_CLOCKID (env_open env 0) in
  let w1 := snd (GetPtpTime env ts0 init_world) in
  let w2 := snd (run_calls env later w1) in
  clkid w1 = id /\ clkid w2 = id /\
  opens w2 = 1%nat /\
  GetPtpTime_acquire env w2 = (true, w2) /\
  GetPtpTime env None w2 = ((id, None), w2) /\
  (forall buf,
     fst (fst (GetPtpTime env (Some buf) w2)) =
     if fst (env_clock_gettime env (gettimes w2) id zero_timespec) <? 0
     then CLOCK_INVALID else id) /\
  forall ts, opens (snd (GetPtpTime env ts w2)) = 1%nat /\
             clkid (snd (GetPtpTime env ts w2)) = id.
Proof.
  intros Hfd id w1 w2.
  destruct (GetPtpTime_after_open_ok env ts0 init_world eq_refl Hfd)
    as [Hc1 Ho1].
  rewrite opens_init in Hc1, Ho1. fold w1 id in Hc1, Ho1.
  assert (Hv1 : clkid w1 <> CLOCK_INVALID)
    by (rewrite Hc1; apply FD_TO_CLOCKID_valid).
  destruct (run_calls_cached env later w1 Hv1) as [Hc2 Ho2].
  fold w2 in Hc2, Ho2.
  assert (Hv2 : clkid w2 <> CLOCK_INVALID) by congruence.
  repeat split.
  - exact Hc1.
  - congruence.
  - congruence.
  - apply acquire_cached, Hv2.
  - rewrite (GetPtpTime_cached env None w2 Hv2), read_null. congruence.
  - intros buf. rewrite (GetPtpTime_cached env (Some buf) w2 Hv2), read_buffer.
    cbv zeta. rewrite Hc2, Hc1. destruct (fst _ <? 0); reflexivity.
  - rewrite (GetPtpTime_cached env ts w2 Hv2).
    destruct (read_keeps env ts w2) as [_ Ho]. congruence.
  - rewrite (GetPtpTime_cached env ts w2 Hv2).
    destruct (read_keeps env ts w2) as [Hc _]. congruence.
Qed.

Lemma cached_identifier_reused_witness :
  opens (snd (run_calls env_healthy [None; Some junk; None]
                (snd (GetPtpTime env_healthy (Some junk) init_world)))) = 1%nat.
Proof.
  exact (proj1 (proj2 (proj2
    (cached_identifier_reused env_healthy (Some junk) [None; Some junk; None]
       ltac:(cbn; lia))))).
Defined.

(** C4.  A call that finds the cache uninitialised leaves an identifier
    cached if and only if its [open] succeeded.  When the [open] fails the
    cache is unchanged (still [CLOCK_INVALID]), one [open] was attempted, and
    the next call attempts [open] again. *)
Theorem cached_iff_open_succeeded (env : Env) (ts : option timespec)
        (w : World) :
  clkid w = CLOCK_INVALID ->
  let fd := env_open env (opens w) in
  let w' := snd (GetPtpTime env ts w) in
  (clkid w' <> CLOCK_INVALID <-> 0 <= fd) /\
  (fd < 0 ->
   clkid w' = clkid w /\
   opens w' = S (opens w) /\
   forall ts', opens (snd (GetPtpTime env ts' w')) = S (S (opens w))).
Proof.
  intros Hinv fd w'. split.
  - destruct (Z.lt_ge_cases fd 0) as [Hfd | Hfd].
    + destruct (GetPtpTime_after_open_failed env ts w Hinv Hfd) as [Hc _].
      fold w' in Hc. split; [congruence | lia].
    + destruct (GetPtpTime_after_open_ok env ts w Hinv Hfd) as [Hc _].
      fold w' in Hc. split; [intros _; exact Hfd|].
      intros _. rewrite Hc. apply FD_TO_CLOCKID_valid.
  - intros Hfd.
    destruct (GetPtpTime_after_open_failed env ts w Hinv Hfd) as [Hc Ho].
    fold w' in Hc, Ho. repeat split; try congruence.
    intros ts'. rewrite <- Ho.
    destruct (Z.lt_ge_cases (env_open env (opens w')) 0) as [Hfd' | Hfd'].
    + apply (GetPtpTime_after_open_failed env ts' w' Hc Hfd').
    + apply (GetPtpTime_after_open_ok env ts' w' Hc Hfd').
Qed.

Lemma cached_iff_open_succeeded_witness :
  clkid (snd (GetPtpTime env_late_device None init_world)) = CLOCK_INVALID /\
  opens (snd (GetPtpTime env_late_device None
                (snd (GetPtpTime env_late_device None init_world)))) = 2%nat.
Proof.
  pose proof (cached_iff_open_succeeded env_late_device None init_world
                eq_refl) as [_ H].
  destruct (H ltac:(cbn; lia)) as (Hc & _ & Hn).
  split; [exact Hc | exact (Hn None)].
Defined.

(** Over a whole process, after any number of calls: an identifier is cached
    exactly when some [open] of the process returned a descriptor. *)
Lemma cache_reflects_opens (env : Env) (calls : list (option timespec)) :
  let w := snd (run_calls env calls init_world) in
  clkid w <> CLOCK_INVALID <-> open_succeeded w = true.
Proof.
  cbv zeta.
  assert (Hgen : forall w,
             (clkid w <> CLOCK_INVALID <-> open_succeeded w = true) ->
             clkid (snd (run_calls env calls w)) <> CLOCK_INVALID <->
             open_succeeded (snd (run_calls env calls w)) = true).
  { induction calls as [|ts rest IH]; intros w Hw; [exact Hw|].
    rewrite run_calls_cons. apply IH.
    destruct (read_trace env ts) as [Hread _].
    destruct (Z.eq_dec (clkid w) CLOCK_INVALID) as [Hinv | Hc].
    - assert (Hno : existsb is_successful_open (trace w) = false).
      { destruct (existsb is_successful_open (trace w)) eqn:E;
          [|reflexivity].
        exfalso. apply (proj2 Hw); [exact E | exact Hinv]. }
      destruct (Z.lt_ge_cases (env_open env (opens w)) 0) as [Hfd | Hfd].
      + rewrite (GetPtpTime_open_failed env ts w Hinv Hfd).
        cbn [snd clkid]. unfold open_succeeded. cbn [trace].
        rewrite existsb_app, Hno. cbn.
        apply Z.leb_gt in Hfd. rewrite Hfd.
        split; [congruence | discriminate].
      + rewrite (GetPtpTime_open_ok env ts w Hinv Hfd).
        destruct (Hread (mkWorld (FD_TO_CLOCKID (env_open env (opens w)))
                           (trace w ++ [SysOpen (env_open env (opens w));
                                        Stdout (OpenLine
                                                  (env_open env (opens w)))])))
          as (evs & -> & Hevs).
        cbn [clkid trace]. unfold open_succeeded. cbn [trace].
        rewrite !existsb_app, Hno, Hevs. cbn.
        apply Z.leb_le in Hfd. rewrite Hfd.
        split; [reflexivity | intros _; apply FD_TO_CLOCKID_valid].
    - rewrite (GetPtpTime_cached env ts w Hc).
      destruct (Hread w) as (evs & -> & Hevs).
      cbn [clkid]. unfold open_succeeded. cbn [trace].
      rewrite existsb_app, Hevs, orb_false_r. exact Hw. }
  apply Hgen. cbn. split; [congruence | discriminate].
Qed.

(** C5.  Once an identifier is cached no sequence of later calls, with or
    without a buffer and whatever the operating system answers (failed reads
    included), changes it; nor does any of them open the device again. *)
Theorem cached_is_terminal (env : Env) (calls : list (option timespec))
        (w : World) :
  clkid w <> CLOCK_INVALID ->
  clkid (snd (run_calls env calls w)) = clkid w /\
  clkid (snd (run_calls env calls w)) <> CLOCK_INVALID /\
  opens (snd (run_calls env calls w)) = opens w.
Proof.
  intros Hw. destruct (run_calls_cached env calls w Hw) as [Hc Ho].
  repeat split; congruence.
Qed.

Lemma cached_is_terminal_witness :
  clkid (snd (run_calls env_read_fails [Some junk; None; Some junk]
                (mkWorld (-29) []))) = -29.
Proof.
  exact (proj1 (cached_is_terminal env_read_fails [Some junk; None; Some junk]
                  (mkWorld (-29) []) ltac:(discriminate))).
Defined.



(* ================================================================= *)
(** ** Whole runs of main *)


(** The run of [main] in closed form, by the two tests that decide it. *)
Lemma main_run (env : Env) :
  let fd := env_open env 0 in
  let id := FD_TO_CLOCKID fd in
  let q := env_clock_gettime env 0 id zero_timespec in
  let q2 := env_clock_gettime env 1 CLOCK_REALTIME (stack_ts2 env) in
  let ts3 := mkTimespec (Z.quot (env_now env) 1000000000)
                        (Z.rem (env_now env) 1000000000) in
  main env init_world =
  if fd <? 0 then
    (1, mkWorld CLOCK_INVALID
          [SysOpen fd; Stdout (OpenLine fd); Stderr OpenFailed;
           Stderr NoClockId])
  else if fst q <? 0 then
    (1, mkWorld id
          [SysOpen fd; Stdout (OpenLine fd); SysClockGettime id (fst q);
           Stderr GettimeFailed; Stderr NoClockId])
  else
    (0, mkWorld id
          [SysOpen fd; Stdout (OpenLine fd); SysClockGettime id (fst q);
           Stdout (TimeLine "ptp time" (snd q));
           Stdout (DateLine (tv_sec (snd q)));
           SysClockGettime CLOCK_REALTIME (fst q2);
           Stdout (TimeLine "real time" (snd q2));
           Stdout (DateLine (tv_sec (snd q2)));
           SysNow (env_now env);
           Stdout (TimeLine "system clock time" ts3);
           Stdout (DateLine (tv_sec ts3))]).
Proof.
  intros fd id q q2 ts3.
  unfold main. unfold bind at 1.
  destruct (GetPtpTime_buffer_cases env (stack_ts env) init_world)
    as [(_ & Hfd & ->) | (id' & pre & Hid & Hpre & Hq)].
  - rewrite opens_init in Hfd. fold fd in Hfd.
    apply Z.ltb_lt in Hfd. rewrite Hfd. reflexivity.
  - destruct Hpre as [[Hc _] | (_ & Hfd & -> & ->)];
      [cbn in Hc; congruence|].
    rewrite opens_init in *. fold fd id in Hfd, Hq |- *.
    apply Z.ltb_ge in Hfd. rewrite Hfd.
    change (gettimes init_world) with 0%nat in Hq. fold q in Hq.
    cbv zeta in Hq. destruct Hq as [[Hrc ->] | [Hrc ->]].
    + apply Z.ltb_lt in Hrc. rewrite Hrc. reflexivity.
    + apply Z.ltb_ge in Hrc. rewrite Hrc. cbn [fst snd].
      pose proof (FD_TO_CLOCKID_valid fd) as Hv. fold id in Hv.
      apply Z.eqb_neq in Hv. rewrite Hv.
      prog_simpl. reflexivity.
Qed.









(* ================================================================= *)
(** ** The identifier derivation *)

(** C6.  The derivation is a function of the handle value alone: it is the
    complement of the handle, shifted left by three and or-ed with three, read
    as a 32-bit signed integer (arithmetically, -8*handle - 5 wrapped to 32
    bits), and handle 3 gives identifier -29.  In the program the identifier
    a call leaves in an empty cache is this function of the descriptor that
    [open] returned, whatever the trace, the environment and the argument. *)
Theorem FD_TO_CLOCKID_derivation :
  (forall fd, FD_TO_CLOCKID fd = derive_identifier_spec fd) /\
  (forall fd, FD_TO_CLOCKID fd = CInt.to_signed (- (8 * fd) - 5)) /\
  FD_TO_CLOCKID 3 = -29 /\
  (forall env ts tr,
     let w := mkWorld CLOCK_INVALID tr in
     let fd := env_open env (opens w) in
     clkid (snd (GetPtpTime env ts w)) =
     if fd <? 0 then CLOCK_INVALID else FD_TO_CLOCKID fd).
Proof.
  split; [|split; [|split]].
  - intros fd. rewrite FD_TO_CLOCKID_arith. unfold derive_identifier_spec.
    rewrite Z.shiftl_mul_pow2 by lia.
    replace (Z.lnot fd * 2 ^ 3) with (8 * Z.lnot fd) by lia.
    rewrite lor_tag. f_equal. unfold Z.lnot. lia.
  - exact FD_TO_CLOCKID_arith.
  - reflexivity.
  - intros env ts tr w fd.
    destruct (Z.ltb_spec fd 0) as [Hfd | Hfd].
    + apply (GetPtpTime_after_open_failed env ts w eq_refl Hfd).
    + apply (GetPtpTime_after_open_ok env ts w eq_refl Hfd).
Qed.

(** C7, as the code has it.  Two handles get the same identifier exactly when
    they agree modulo 2^29 (the shift drops the three top bits of the
    complement), so the handle is recoverable on any window of 2^29
    consecutive values and not beyond; for a handle in [-2^28, 2^28) the
    identifier is -8*handle - 5 without wrap-around and complementing its
    arithmetic shift right by three gives the handle back. *)
Theorem FD_TO_CLOCKID_round_trip (fd : Z) :
  - 2 ^ 28 <= fd < 2 ^ 28 ->
  clockid_to_fd (FD_TO_CLOCKID fd) = fd /\
  (forall fd', FD_TO_CLOCKID fd = FD_TO_CLOCKID fd' <->
               fd mod 2 ^ 29 = fd' mod 2 ^ 29) /\
  (forall fd', - 2 ^ 28 <= fd' < 2 ^ 28 ->
               FD_TO_CLOCKID fd = FD_TO_CLOCKID fd' -> fd = fd').
Proof.
  intros Hfd. split; [|split].
  - rewrite FD_TO_CLOCKID_small by assumption.
    unfold clockid_to_fd. rewrite Z.shiftr_div_pow2 by lia.
    replace (- (8 * fd) - 5) with (3 + (- fd - 1) * 2 ^ 3) by lia.
    rewrite Z.div_add by lia. unfold Z.lnot. change (3 / 2 ^ 3) with 0. lia.
  - intros fd'. apply FD_TO_CLOCKID_collide.
  - intros fd' Hfd' Heq. rewrite !FD_TO_CLOCKID_small in Heq by assumption.
    lia.
Qed.

Lemma FD_TO_CLOCKID_round_trip_witness :
  clockid_to_fd (FD_TO_CLOCKID 3) = 3.
Proof.
  exact (proj1 (FD_TO_CLOCKID_round_trip 3 ltac:(lia))).
Defined.

(** C7, counterexample.  Descriptors 0 and 2^29 are both values of [int] and
    both map to identifier -5, so no function of the identifier returns the
    handle for every handle value. *)
Lemma FD_TO_CLOCKID_not_injective :
  CInt.in_int 0 /\ CInt.in_int 536870912 /\ 0 <> 536870912 /\
  FD_TO_CLOCKID 0 = -5 /\ FD_TO_CLOCKID 536870912 = -5 /\
  clockid_to_fd (FD_TO_CLOCKID 536870912) = 0.
Proof.
  unfold CInt.in_int. repeat split; try lia; discriminate.
Qed.

(* ================================================================= *)
(** ** The tag and the sentinel *)

(** C10.  Every derived identifier is 3 modulo 8, its low three bits are 011,
    it is never [CLOCK_INVALID], and the test [clkid == CLOCK_INVALID] of
    line 47 is false on it; hence in every state of the process the
    acquisition step goes on to the time read exactly when it leaves a
    non-sentinel identifier in the cache. *)
Theorem FD_TO_CLOCKID_tagged (fd : Z) :
  FD_TO_CLOCKID fd mod 8 = 3 /\
  Z.land (FD_TO_CLOCKID fd) 7 = 3 /\
  FD_TO_CLOCKID fd <> CLOCK_INVALID /\
  (FD_TO_CLOCKID fd =? CLOCK_INVALID) = false /\
  forall env w,
    fst (GetPtpTime_acquire env w) = true <->
    clkid (snd (GetPtpTime_acquire env w)) <> CLOCK_INVALID.
Proof.
  pose proof (FD_TO_CLOCKID_mod8 fd) as Hm.
  pose proof (FD_TO_CLOCKID_valid fd) as Hv.
  split; [exact Hm|]. split; [|split; [exact Hv|split]].
  - change 7 with (Z.ones 3). rewrite Z.land_ones by lia. exact Hm.
  - apply Z.eqb_neq. exact Hv.
  - intros env w.
    destruct (Z.eq_dec (clkid w) CLOCK_INVALID) as [Hinv | Hc].
    + destruct (Z.lt_ge_cases (env_open env (opens w)) 0) as [Hfd | Hfd].
      * rewrite (acquire_open_failed env w Hinv Hfd). cbn [fst snd clkid].
        split; [discriminate | congruence].
      * rewrite (acquire_open_ok env w Hinv Hfd). cbn [fst snd clkid].
        split; [intros _; apply FD_TO_CLOCKID_valid | reflexivity].
    + rewrite (acquire_cached env w Hc). cbn [fst snd].
      split; [intros _; exact Hc | reflexivity].
Qed.

(* ================================================================= *)
(** ** Single calls: what a call appends and returns *)

Section OneCall.

Variable env : Env.

(** What the read step appends: nothing, the read, or the read and its error
    line; the cache is untouched. *)
Lemma read_appends (ts : option timespec) (w : World) :
  exists post,
    snd (GetPtpTime_read env ts w) = mkWorld (clkid w) (trace w ++ post) /\
    (fst (fst (GetPtpTime_read env ts w)) = clkid w \/
     fst (fst (GetPtpTime_read env ts w)) = CLOCK_INVALID) /\
    ((post = [] /\ ts = None) \/
     exists rc, ts <> None /\
       (post = [SysClockGettime (clkid w) rc] \/
        post = [SysClockGettime (clkid w) rc; Stderr GettimeFailed])).
Proof.
  destruct ts as [buf|].
  - rewrite read_buffer. cbv zeta.
    destruct (fst _ <? 0) eqn:E; eexists; (split; [reflexivity|]);
      cbn [fst]; (split; [auto|]); right; eexists; (split; [discriminate|]);
      [right | left]; reflexivity.
  - exists []. rewrite read_null, app_nil_r. destruct w.
    repeat split; auto.
Qed.

(** The shape of any call: what the acquisition step appended ([pre]), what
    the read step appended ([post]), and the cache afterwards. *)
Lemma GetPtpTime_events (ts : option timespec) (w : World) :
  let fd := env_open env (opens w) in
  let w' := snd (GetPtpTime env ts w) in
  exists pre post,
    w' = mkWorld (clkid w') (trace w ++ pre ++ post) /\
    ((clkid w <> CLOCK_INVALID /\ pre = [] /\ clkid w' = clkid w) \/
     (clkid w = CLOCK_INVALID /\ 0 <= fd /\
      pre = [SysOpen fd; Stdout (OpenLine fd)] /\
      clkid w' = FD_TO_CLOCKID fd) \/
     (clkid w = CLOCK_INVALID /\ fd < 0 /\
      pre = [SysOpen fd; Stdout (OpenLine fd); Stderr OpenFailed] /\
      post = [] /\ clkid w' = CLOCK_INVALID)) /\
    (post = [] \/
     exists rc, ts <> None /\ clkid w' <> CLOCK_INVALID /\
       (post = [SysClockGettime (clkid w') rc] \/
        post = [SysClockGettime (clkid w') rc; Stderr GettimeFailed])).
Proof.
  intros fd w'. subst w'.
  destruct (Z.eq_dec (clkid w) CLOCK_INVALID) as [Hinv | Hc].
  - destruct (Z.lt_ge_cases fd 0) as [Hfd | Hfd].
    + rewrite (GetPtpTime_open_failed env ts w Hinv Hfd). fold fd.
      cbn [snd clkid].
      exists [SysOpen fd; Stdout (OpenLine fd); Stderr OpenFailed], [].
      rewrite app_nil_r. split; [reflexivity|]. split; [|left; reflexivity].
      right. right. repeat split; assumption.
    + rewrite (GetPtpTime_open_ok env ts w Hinv Hfd). fold fd.
      destruct (read_appends ts
                  (mkWorld (FD_TO_CLOCKID fd)
                     (trace w ++ [SysOpen fd; Stdout (OpenLine fd)])))
        as (post & -> & _ & Hpost).
      cbn [clkid trace] in *.
      exists [SysOpen fd; Stdout (OpenLine fd)], post.
      rewrite <- app_assoc. split; [reflexivity|].
      split; [right; left; repeat split; assumption|].
      destruct Hpost as [[-> _] | (rc & Hts & Hp)]; [left; reflexivity|].
      right. exists rc. split; [exact Hts|].
      split; [apply FD_TO_CLOCKID_valid | exact Hp].
  - rewrite (GetPtpTime_cached env ts w Hc).
    destruct (read_appends ts w) as (post & -> & _ & Hpost).
    cbn [clkid]. exists [], post. split; [reflexivity|].
    split; [left; repeat split; assumption|].
    destruct Hpost as [[-> _] | (rc & Hts & Hp)]; [left; reflexivity|].
    right. exists rc. repeat split; assumption.
Qed.

(** X1.  The previous contents of the caller's buffer never reach the world:
    two calls that differ only in those contents leave the same cache and the
    same trace and return the same identifier.  The buffers they hand back
    agree as well, except when the open fails: then the function returns
    before the memset and before any clock read, with [CLOCK_INVALID], and
    each caller keeps exactly what it had. *)
Theorem buffer_contents_do_not_flow (b1 b2 : timespec) (w : World) :
  let r1 := GetPtpTime env (Some b1) w in
  let r2 := GetPtpTime env (Some b2) w in
  snd r1 = snd r2 /\
  fst (fst r1) = fst (fst r2) /\
  (snd (fst r1) = snd (fst r2) \/
   (clkid w = CLOCK_INVALID /\ env_open env (opens w) < 0 /\
    fst (fst r1) = CLOCK_INVALID /\
    snd (fst r1) = Some b1 /\ snd (fst r2) = Some b2 /\
    gettimes (snd r1) = gettimes w)).
Proof.
  cbv zeta.
  destruct (Z.eq_dec (clkid w) CLOCK_INVALID) as [Hinv | Hc].
  - destruct (Z.lt_ge_cases (env_open env (opens w)) 0) as [Hfd | Hfd].
    + rewrite !(GetPtpTime_open_failed env _ w Hinv Hfd). cbn [fst snd].
      split; [reflexivity|]. split; [reflexivity|]. right.
      repeat split; try assumption.
      rewrite gettimes_app. cbn. unfold gettimes. lia.
    + rewrite !(GetPtpTime_open_ok env _ w Hinv Hfd), !read_buffer.
      repeat split. left. reflexivity.
  - rewrite !(GetPtpTime_cached env _ w Hc), !read_buffer.
    repeat split. left. reflexivity.
Qed.

(** X2.  A call with a null pointer is the acquisition alone: it makes no
    clock read, hands back no buffer, returns exactly what the cache holds
    afterwards, and that is [CLOCK_INVALID] precisely when the cache was
    empty and the open failed. *)
Theorem null_call_only_acquires (w : World) :
  let r := GetPtpTime env None w in
  snd (fst r) = None /\
  gettimes (snd r) = gettimes w /\
  fst (fst r) = clkid (snd r) /\
  (fst (fst r) = CLOCK_INVALID <->
   clkid w = CLOCK_INVALID /\ env_open env (opens w) < 0).
Proof.
  cbv zeta.
  destruct (Z.eq_dec (clkid w) CLOCK_INVALID) as [Hinv | Hc].
  - destruct (Z.lt_ge_cases (env_open env (opens w)) 0) as [Hfd | Hfd].
    + rewrite (GetPtpTime_open_failed env None w Hinv Hfd).
      cbn [fst snd clkid]. rewrite gettimes_app. cbn. unfold gettimes.
      split; [reflexivity|]. split; [lia|]. split; [reflexivity|].
      split; [intros _; split; assumption | reflexivity].
    + rewrite (GetPtpTime_open_ok env None w Hinv Hfd), read_null.
      cbn [fst snd clkid]. rewrite gettimes_app. cbn. unfold gettimes.
      split; [reflexivity|]. split; [lia|]. split; [reflexivity|].
      split.
      * intros Hbad. exfalso. exact (FD_TO_CLOCKID_valid _ Hbad).
      * intros [_ Hneg]. lia.
  - rewrite (GetPtpTime_cached env None w Hc), read_null. cbn [fst snd].
    split; [reflexivity|]. split; [reflexivity|]. split; [reflexivity|].
    split; [intros Hbad | intros [Hbad _]]; congruence.
Qed.

(** X3.  No call ever asks [clock_gettime] about [CLOCK_INVALID]: every clock
    read a call makes names the identifier the cache holds after the call,
    which is not the sentinel.  A call makes at most one open and at most one
    clock read. *)
Theorem clock_read_uses_cached_identifier (ts : option timespec) (w : World) :
  let w' := snd (GetPtpTime env ts w) in
  Forall (reads_clock (clkid w')) (events_since w w') /\
  (opens w' <= S (opens w))%nat /\
  (gettimes w' <= S (gettimes w))%nat.
Proof.
  intros w'.
  destruct (GetPtpTime_events ts w) as (pre & post & Hw' & Hpre & Hpost).
  fold w' in Hw', Hpre, Hpost.
  assert (Hev : events_since w w' = pre ++ post)
    by (rewrite Hw'; apply events_since_app).
  assert (Ho : opens w' =
               (opens w + List.length (filter is_open (pre ++ post)))%nat)
    by (rewrite Hw'; apply opens_app).
  assert (Hg : gettimes w' =
               (gettimes w
                + List.length (filter is_clock_gettime (pre ++ post)))%nat)
    by (rewrite Hw'; apply gettimes_app).
  rewrite Hev, Ho, Hg. clear Hev Ho Hg Hw'.
  assert (Hpre' : Forall (reads_clock (clkid w')) pre /\
                  (List.length (filter is_open pre) <= 1)%nat /\
                  filter is_clock_gettime pre = []).
  { destruct Hpre as [(_ & -> & _) | [(_ & _ & -> & _) | (_ & _ & -> & _)]];
      cbn; repeat constructor. }
  assert (Hpost' : Forall (reads_clock (clkid w')) post /\
                   filter is_open post = [] /\
                   (List.length (filter is_clock_gettime post) <= 1)%nat).
  { destruct Hpost as [-> | (rc & _ & Hv & [-> | ->])];
      cbn; repeat constructor; auto. }
  destruct Hpre' as (F1 & O1 & G1), Hpost' as (F2 & O2 & G2).
  rewrite !filter_app, !length_app, O2, G1. cbn [List.length].
  split; [apply Forall_app; split; assumption|]. lia.
Qed.

End OneCall.

(* ================================================================= *)
(** ** Whole processes: sequences of calls *)

Section Process.

Variable env : Env.

Lemma successful_opens_app (c : Z) (tr evs : list event) :
  successful_opens (mkWorld c (tr ++ evs)) =
  filter is_successful_open tr ++ filter is_successful_open evs.
Proof. unfold successful_opens. cbn [trace]. apply filter_app. Qed.

Lemma call_keeps_one_descriptor (ts : option timespec) (w : World) :
  holds_one_descriptor w ->
  holds_one_descriptor (snd (GetPtpTime env ts w)).
Proof.
  intros Hinv.
  destruct (GetPtpTime_events env ts w) as (pre & post & Hw' & Hpre & Hpost).
  cbv zeta in *. set (w' := snd (GetPtpTime env ts w)) in *.
  assert (Hpost' : filter is_successful_open post = []).
  { destruct Hpost as [-> | (rc & _ & _ & [-> | ->])]; reflexivity. }
  unfold holds_one_descriptor in *. rewrite Hw'.
  rewrite successful_opens_app, filter_app, Hpost', app_nil_r.
  fold (successful_opens w). cbn [clkid].
  destruct Hpre as [(Hc & -> & Hk)
                   | [(Hc & Hfd & -> & Hk) | (Hc & Hfd & -> & _ & Hk)]].
  - rewrite app_nil_r, Hk. exact Hinv.
  - assert (Hnone : successful_opens w = []).
    { destruct (successful_opens w) as [|[fd0| | | |] [|e l]];
        try contradiction; [reflexivity|].
      exfalso. apply (FD_TO_CLOCKID_valid fd0). congruence. }
    rewrite Hnone. cbn. apply Z.leb_le in Hfd. rewrite Hfd. exact Hk.
  - assert (Hnone : successful_opens w = []).
    { destruct (successful_opens w) as [|[fd0| | | |] [|e l]];
        try contradiction; [reflexivity|].
      exfalso. apply (FD_TO_CLOCKID_valid fd0). congruence. }
    rewrite Hnone. cbn. apply Z.leb_gt in Hfd. rewrite Hfd. exact Hk.
Qed.

Lemma call_opens_bound (ts : option timespec) (w : World) :
  (opens (snd (GetPtpTime env ts w)) <= S (opens w))%nat.
Proof.
  destruct (Z.eq_dec (clkid w) CLOCK_INVALID) as [Hinv | Hc].
  - destruct (Z.lt_ge_cases (env_open env (opens w)) 0) as [Hfd | Hfd].
    + destruct (GetPtpTime_after_open_failed env ts w Hinv Hfd) as [_ ->].
      lia.
    + destruct (GetPtpTime_after_open_ok env ts w Hinv Hfd) as [_ ->]. lia.
  - rewrite (GetPtpTime_cached env ts w Hc).
    destruct (read_keeps env ts w) as [_ ->]. lia.
Qed.

Lemma call_result (ts : option timespec) (w : World) :
  fst (fst (GetPtpTime env ts w)) = CLOCK_INVALID \/
  fst (fst (GetPtpTime env ts w)) = clkid (snd (GetPtpTime env ts w)).
Proof.
  destruct (Z.eq_dec (clkid w) CLOCK_INVALID) as [Hinv | Hc].
  - destruct (Z.lt_ge_cases (env_open env (opens w)) 0) as [Hfd | Hfd].
    + left. rewrite (GetPtpTime_open_failed env ts w Hinv Hfd). reflexivity.
    + rewrite (GetPtpTime_open_ok env ts w Hinv Hfd).
      destruct (read_appends env ts
                  (mkWorld (FD_TO_CLOCKID (env_open env (opens w)))
                     (trace w ++ [SysOpen (env_open env (opens w));
                                  Stdout (OpenLine (env_open env (opens w)))])))
        as (post & -> & [Hr | Hr] & _); [right | left]; exact Hr.
  - rewrite (GetPtpTime_cached env ts w Hc).
    destruct (read_appends env ts w) as (post & -> & [Hr | Hr] & _);
      [right | left]; exact Hr.
Qed.

Lemma run_calls_results (ts : option timespec)
      (rest : list (option timespec)) (w : World) :
  fst (run_calls env (ts :: rest) w) =
  fst (GetPtpTime env ts w)
  :: fst (run_calls env rest (snd (GetPtpTime env ts w))).
Proof. reflexivity. Qed.

(** X4.  However many calls a process makes and whatever the environment
    answers, at most one open ever returns a descriptor, the cache is empty
    as long as none has and holds the identifier derived from that one
    descriptor afterwards, and the process has made no more opens than
    calls. *)
Theorem at_most_one_descriptor (calls : list (option timespec)) :
  let w := snd (run_calls env calls init_world) in
  holds_one_descriptor w /\
  (List.length (successful_opens w) <= 1)%nat /\
  (opens w <= List.length calls)%nat.
Proof.
  cbv zeta.
  assert (Hgen : forall w,
             holds_one_descriptor w ->
             holds_one_descriptor (snd (run_calls env calls w)) /\
             (opens (snd (run_calls env calls w))
              <= opens w + List.length calls)%nat).
  { induction calls as [|ts rest IH]; intros w Hw.
    - split; [exact Hw | cbn; lia].
    - rewrite run_calls_cons.
      destruct (IH _ (call_keeps_one_descriptor ts w Hw)) as [Hi Ho].
      split; [exact Hi|].
      pose proof (call_opens_bound ts w). cbn [List.length]. lia. }
  destruct (Hgen init_world eq_refl) as [Hi Ho].
  split; [exact Hi|]. split; [|exact Ho].
  unfold holds_one_descriptor in Hi.
  destruct (successful_opens (snd (run_calls env calls init_world)))
    as [|e [|e' l]]; cbn; try lia.
  destruct e; contradiction.
Qed.

(** X5.  Within one process every call returns either [CLOCK_INVALID] or the
    identifier the cache holds at the end of the process, so all the valid
    identifiers a process ever hands out are one and the same; there is one
    result per call. *)
Theorem valid_results_agree (calls : list (option timespec)) (w : World) :
  let out := run_calls env calls w in
  Forall (fun r => fst r = CLOCK_INVALID \/ fst r = clkid (snd out))
         (fst out) /\
  List.length (fst out) = List.length calls.
Proof.
  cbv zeta. revert w.
  induction calls as [|ts rest IH]; intros w.
  - split; [constructor | reflexivity].
  - rewrite run_calls_results, run_calls_cons.
    destruct (IH (snd (GetPtpTime env ts w))) as [Hall Hlen].
    split; [|cbn [List.length]; congruence].
    constructor; [|exact Hall].
    destruct (call_result ts w) as [Hr | Hr]; [left; exact Hr|].
    destruct (Z.eq_dec (fst (fst (GetPtpTime env ts w))) CLOCK_INVALID)
      as [Hbad | Hgood]; [left; exact Hbad|].
    right. rewrite Hr.
    symmetry. apply run_calls_cached. congruence.
Qed.

Lemma retry_from (k : nat) (calls : list (option timespec)) :
  (forall i, (i < k)%nat -> env_open env i < 0) ->
  0 <= env_open env k ->
  forall w,
    clkid w = CLOCK_INVALID -> (opens w <= k)%nat ->
    let w' := snd (run_calls env calls w) in
    ((opens w + List.length calls <= k)%nat ->
     clkid w' = CLOCK_INVALID /\
     opens w' = (opens w + List.length calls)%nat) /\
    ((k < opens w + List.length calls)%nat ->
     clkid w' = FD_TO_CLOCKID (env_open env k) /\ opens w' = S k).
Proof.
  intros Hfail Hok. cbv zeta.
  induction calls as [|ts rest IH]; intros w Hinv Hle.
  - cbn [List.length run_calls ret snd]. split; intros H.
    + split; [exact Hinv | lia].
    + lia.
  - rewrite run_calls_cons. cbn [List.length].
    destruct (Nat.eq_dec (opens w) k) as [Heq | Hne].
    + assert (Hfd : 0 <= env_open env (opens w)) by (rewrite Heq; exact Hok).
      destruct (GetPtpTime_after_open_ok env ts w Hinv Hfd) as [Hc Ho].
      assert (Hv : clkid (snd (GetPtpTime env ts w)) <> CLOCK_INVALID)
        by (rewrite Hc; apply FD_TO_CLOCKID_valid).
      destruct (run_calls_cached env rest _ Hv) as [Hc' Ho'].
      split; intros H; [lia|].
      rewrite Hc', Ho', Hc, Ho, Heq. split; reflexivity.
    + assert (Hfd : env_open env (opens w) < 0) by (apply Hfail; lia).
      destruct (GetPtpTime_after_open_failed env ts w Hinv Hfd) as [Hc Ho].
      destruct (IH _ Hc ltac:(lia)) as [IH1 IH2].
      rewrite Ho in IH1, IH2.
      split; intros H.
      * destruct (IH1 ltac:(lia)) as [-> ->]. split; [reflexivity | lia].
      * apply IH2. lia.
Qed.

(** X6.  Retry until the device appears: if the first [k] opens of the
    process fail and the next one succeeds, then a process that has made at
    most [k] calls has an empty cache and has opened once per call, and
    after more than [k] calls the cache holds the identifier of open number
    [k] and the process has made exactly [k + 1] opens, however many calls
    follow. *)
Theorem retry_until_open_succeeds (k : nat) (calls : list (option timespec)) :
  (forall i, (i < k)%nat -> env_open env i < 0) ->
  0 <= env_open env k ->
  let w := snd (run_calls env calls init_world) in
  ((List.length calls <= k)%nat ->
   clkid w = CLOCK_INVALID /\ opens w = List.length calls) /\
  ((k < List.length calls)%nat ->
   clkid w = FD_TO_CLOCKID (env_open env k) /\ opens w = S k).
Proof.
  intros Hfail Hok.
  exact (retry_from k calls Hfail Hok init_world eq_refl (Nat.le_0_l k)).
Qed.

End Process.

Lemma retry_until_open_succeeds_witness :
  clkid (snd (run_calls env_third_try [None; Some junk; None; None]
                init_world)) = FD_TO_CLOCKID 5 /\
  opens (snd (run_calls env_third_try [None; Some junk; None; None]
                init_world)) = 3%nat.
Proof.
  refine (proj2 (retry_until_open_succeeds env_third_try 2
                   [None; Some junk; None; None] _ _) _).
  - intros [|[|i]] Hi; cbn; lia.
  - cbn. lia.
  - cbn. lia.
Defined.

(* ================================================================= *)
(** ** What a run of main shows to its user *)


(** X8.  The indeterminate initial contents of the automatic variable [ts]
    of [main] are never observed: runs that differ only in them have the
    same exit code, the same final state and the same trace. *)
Theorem main_ignores_uninitialised_ts (env : Env) (garbage : timespec) :
  main (with_stack_ts env garbage) init_world = main env init_world.
Proof. rewrite !main_run. reflexivity. Qed.



(** X10.  In every successful run the [system_clock] timestamp that is
    printed recomposes the clock reading exactly (seconds times 10^9 plus
    nanoseconds is the count), its nanoseconds stay below one second in
    absolute value, and seconds and nanoseconds never have opposite signs. *)
Theorem system_clock_timestamp_recomposes (env : Env) :
  exit_code env = 0 ->
  exists ts,
    In ("system clock time"%string, ts) (printed_timestamps (run_trace env)) /\
    tv_sec ts * 1000000000 + tv_nsec ts = env_now env /\
    - 999999999 <= tv_nsec ts <= 999999999 /\
    (0 <= env_now env -> 0 <= tv_sec ts /\ 0 <= tv_nsec ts) /\
    (env_now env <= 0 -> tv_sec ts <= 0 /\ tv_nsec ts <= 0).
Proof.
  unfold exit_code, run_trace. rewrite main_run.
  destruct (env_open env 0 <? 0); [discriminate|].
  destruct (fst _ <? 0); [discriminate|]. intros _. cbn [snd trace].
  eexists. split; [cbn [printed_timestamps]; right; right; left; reflexivity|].
  cbn [tv_sec tv_nsec].
  pose proof (Z.quot_rem' (env_now env) 1000000000) as Hqr.
  destruct (Z.lt_ge_cases (env_now env) 0) as [Hneg | Hpos].
  - pose proof (Z.rem_bound_pos_neg (env_now env) 1000000000
                  ltac:(lia) ltac:(lia)).
    repeat split; intros; lia.
  - pose proof (Z.rem_bound_pos (env_now env) 1000000000
                  ltac:(lia) ltac:(lia)).
    repeat split; intros; lia.
Qed.

Lemma system_clock_timestamp_recomposes_witness :
  exists ts,
    In ("system clock time"%string, ts)
       (printed_timestamps (run_trace env_before_epoch)) /\
    tv_sec ts * 1000000000 + tv_nsec ts = env_now env_before_epoch /\
    - 999999999 <= tv_nsec ts <= 999999999 /\
    (0 <= env_now env_before_epoch -> 0 <= tv_sec ts /\ 0 <= tv_nsec ts) /\
    (env_now env_before_epoch <= 0 -> tv_sec ts <= 0 /\ tv_nsec ts <= 0).
Proof.
  exact (system_clock_timestamp_recomposes env_before_epoch eq_refl).
Defined.

(* ================================================================= *)
(** ** The sign of a derived identifier *)

(** X11.  For a descriptor in [0, 2^29) the macro gives a negative
    identifier, namely -8*fd - 5, exactly when the descriptor is below 2^28;
    from 2^28 on the shift has pushed a set bit out and the identifier is the
    positive number 2^32 - 8*fd - 5.  On descriptors below 2^28 a larger
    descriptor gives a smaller identifier. *)
Theorem FD_TO_CLOCKID_sign (fd : Z) :
  0 <= fd < 2 ^ 29 ->
  (fd < 2 ^ 28 -> FD_TO_CLOCKID fd = - (8 * fd) - 5 /\ FD_TO_CLOCKID fd < 0) /\
  (2 ^ 28 <= fd ->
   FD_TO_CLOCKID fd = 2 ^ 32 - 8 * fd - 5 /\ 0 < FD_TO_CLOCKID fd) /\
  (forall fd', fd < fd' < 2 ^ 28 -> FD_TO_CLOCKID fd' < FD_TO_CLOCKID fd).
Proof.
  intros Hfd. split; [|split].
  - intros Hlow. rewrite FD_TO_CLOCKID_small by lia. lia.
  - intros Hhigh. rewrite FD_TO_CLOCKID_arith.
    destruct (to_signed_wrap (- (8 * fd) - 5)) as (k & Hk & Hr).
    unfold CInt.in_int in Hr. rewrite Hk in *.
    assert (k = 1) by lia. subst k. lia.
  - intros fd' Hfd'. rewrite !FD_TO_CLOCKID_small by lia. lia.
Qed.

Lemma FD_TO_CLOCKID_sign_witness :
  FD_TO_CLOCKID 268435456 = 2 ^ 32 - 8 * 268435456 - 5 /\
  0 < FD_TO_CLOCKID 268435456.
Proof.
  exact (proj1 (proj2 (FD_TO_CLOCKID_sign 268435456 ltac:(lia))) ltac:(lia)).
Defined.
